(** * dasTug: the game-mode class of Source/dasTug/dasTugGameModeBase.h

    The header declares one class, [AdasTugGameModeBase], publicly derived
    from the engine's [AGameModeBase], whose body holds the reflection marker
    [GENERATED_BODY()] and nothing else.

    The development has three layers:
    - the declarations of the header, as data ([Declaration], [ClassDecl],
      [Member]), transcribed item by item;
    - the object model that gives a class declaration its meaning: object
      layout (base subobject, then the class's own data members), member
      lookup (a member function of the class hides the inherited one),
      default construction (base first, then members, then the body of the
      class's constructor);
    - the properties of [AdasTugGameModeBase] that follow.

    The engine is not part of the repository.  Its base class is a parameter
    of the whole development (a [Section] variable): its state, its
    constructor and its table of operations are arbitrary. *)

From Stdlib Require Import String List Bool.
Import ListNotations.
Local Open Scope string_scope.

(** Access specifier of a base class. *)
Inductive Access : Type := Public | Protected | Private.

(** ** A small engine, used to run the development on concrete values. *)
Module Sample.

(** Base state: whether play has started, and how many players are in. *)
Record State : Type := { started : bool; players : nat }.

Definition ctor (_ : unit) : State := {| started := false; players := 0 |}.

(** Play starts once, and only with somebody in. *)
Definition StartPlay (_ : nat) (s : State) : State * (string + nat) :=
  if started s then (s, inl "already started")
  else if Nat.ltb 0 (players s)
       then ({| started := true; players := players s |}, inr (players s))
       else (s, inl "no players").

(** A player joins unless the session holds [capacity] players already. *)
Definition Login (capacity : nat) (s : State) : State * (string + nat) :=
  if Nat.ltb (players s) capacity
  then ({| started := started s; players := S (players s) |}, inr (S (players s)))
  else (s, inl "session full").

Definition vtable (m : string) : option (nat -> State -> State * (string + nat)) :=
  if String.eqb m "StartPlay" then Some StartPlay
  else if String.eqb m "Login" then Some Login
  else None.

(** A session that has started has a player. *)
Definition started_with_players (s : State) : Prop :=
  started s = true -> 1 <= players s.

End Sample.

Section Engine.

(** ** The engine's side (parameters) *)

(** State of an [AGameModeBase] object. *)
Variable AGameModeBase : Type.
(** What the engine hands to a constructor. *)
Variable Init : Type.
(** Arguments, results and errors of operations; values of data members. *)
Variables Arg Ret Err Val : Type.

(** An operation on objects of state [S]: it returns the object's next state
    and either an error or a result. *)
Definition Behaviour (S : Type) : Type := Arg -> S -> S * (Err + Ret).

(** The base class's default construction. *)
Variable AGameModeBase_ctor : Init -> AGameModeBase.
(** The base class's operations (methods, state transitions and lifecycle
    callbacks), by name. *)
Variable AGameModeBase_vtable : string -> option (Behaviour AGameModeBase).

(** ** Declarations *)

(** A non-static data member, with the value default construction gives it. *)
Record DataMember : Type := {
  dm_type : string;
  dm_name : string;
  dm_default : Val
}.

(** The storage of a class's own data members, in declaration order. *)
Fixpoint FieldStore (fs : list DataMember) : Type :=
  match fs with
  | [] => unit
  | _ :: rest => (Val * FieldStore rest)%type
  end.

Fixpoint default_store (fs : list DataMember) : FieldStore fs :=
  match fs with
  | [] => tt
  | f :: rest => (dm_default f, default_store rest)
  end.

(** Layout of an object of a class derived from [AGameModeBase]: the base
    subobject, then the members the class declares. *)
Record Object (fs : list DataMember) : Type := {
  base_part : AGameModeBase;
  own_part : FieldStore fs
}.
Arguments base_part {fs} _.
Arguments own_part {fs} _.

(** What a class body can hold besides data members.  [S] is the state of the
    class's objects. *)
Inductive Member (S : Type) : Type :=
| MemberFunction (name : string) (body : Behaviour S)
| Constructor (body : S -> S)
| MacroInvocation (name : string) (args : list string).
Arguments MemberFunction {S} _ _.
Arguments Constructor {S} _.
Arguments MacroInvocation {S} _ _.

(** [class API name : access base { fields; body };] *)
Record ClassDecl : Type := {
  class_api : string;
  class_name : string;
  class_base : Access * string;
  class_fields : list DataMember;
  class_body : list (Member (Object class_fields))
}.

(** Top-level items of a header. *)
Inductive Declaration : Type :=
| PragmaOnce
| Include (header : string)
| Macro (name : string) (args : list string)
| ClassDeclaration (c : ClassDecl)
| FunctionDefinition (name : string) (body : Arg -> Err + Ret).

(** The class of the header (lines 12-17; [UCLASS()] is the item before it in
    [dasTugGameModeBase_h]):
<<
    class DASTUG_API AdasTugGameModeBase : public AGameModeBase
    {
        GENERATED_BODY()
    };
>> *)
Definition AdasTugGameModeBase : ClassDecl := {|
  class_api := "DASTUG_API";
  class_name := "AdasTugGameModeBase";
  class_base := (Public, "AGameModeBase");
  class_fields := [];
  class_body := [MacroInvocation "GENERATED_BODY" []]
|}.

(** The header, top to bottom (comments left out). *)
Definition dasTugGameModeBase_h : list Declaration := [
  PragmaOnce;
  Include "CoreMinimal.h";
  Include "GameFramework/GameModeBase.h";
  Include "dasTugGameModeBase.generated.h";
  Macro "UCLASS" [];
  ClassDeclaration AdasTugGameModeBase
].

(** ** The object model *)

(** Modelled from the spec: the expansion of the engine's reflection macros
    ([GENERATED_BODY], [UCLASS]), which is written by the engine's header tool
    into [dasTugGameModeBase.generated.h] and is not in the repository.  The
    spec leaves the codegen macros to the engine and describes the class as a
    definition with zero members: an invocation contributes no member. *)
Definition macro_expansion (S : Type) (name : string) (args : list string)
  : list (Member S) := [].

Definition expand {S : Type} (m : Member S) : list (Member S) :=
  match m with
  | MacroInvocation name args => macro_expansion S name args
  | _ => [m]
  end.

(** The members of a class once its macros are expanded. *)
Definition members (c : ClassDecl) : list (Member (Object (class_fields c))) :=
  flat_map expand (class_body c).

Definition method_of {S : Type} (m : Member S) : list (string * Behaviour S) :=
  match m with
  | MemberFunction name body => [(name, body)]
  | _ => []
  end.

Definition constructor_of {S : Type} (m : Member S) : list (S -> S) :=
  match m with
  | Constructor body => [body]
  | _ => []
  end.

(** The member functions a class declares itself. *)
Definition own_methods (c : ClassDecl)
  : list (string * Behaviour (Object (class_fields c))) :=
  flat_map method_of (members c).

(** The constructor bodies a class declares itself. *)
Definition own_constructors (c : ClassDecl)
  : list (Object (class_fields c) -> Object (class_fields c)) :=
  flat_map constructor_of (members c).

(** The class's default constructor, when it declares one. *)
Definition default_constructor (c : ClassDecl)
  : option (Object (class_fields c) -> Object (class_fields c)) :=
  hd_error (own_constructors c).

Fixpoint lookup {A : Type} (m : string) (table : list (string * A)) : option A :=
  match table with
  | [] => None
  | (name, a) :: rest => if String.eqb m name then Some a else lookup m rest
  end.

(** Derived-to-base conversion. *)
Definition upcast {fs : list DataMember} (o : Object fs) : AGameModeBase :=
  base_part o.

(** The object with base subobject [b] and default-initialised members. *)
Definition embed (fs : list DataMember) (b : AGameModeBase) : Object fs :=
  {| base_part := b; own_part := default_store fs |}.

(** An inherited operation runs on the base subobject and leaves the class's
    own members alone. *)
Definition inherit {fs : list DataMember} (g : Behaviour AGameModeBase)
  : Behaviour (Object fs) :=
  fun a o =>
    let r := g a (base_part o) in
    ({| base_part := fst r; own_part := own_part o |}, snd r).

(** Member lookup on an object of class [c]: the class's own declaration of
    the name if there is one, else the base's. *)
Definition dispatch (c : ClassDecl) (m : string)
  : option (Behaviour (Object (class_fields c))) :=
  match lookup m (own_methods c) with
  | Some f => Some f
  | None => option_map inherit (AGameModeBase_vtable m)
  end.

(** Calling [m] on an object; [None] when the class has no such member. *)
Definition call (c : ClassDecl) (m : string) (a : Arg) (o : Object (class_fields c))
  : option (Object (class_fields c) * (Err + Ret)) :=
  option_map (fun f => f a o) (dispatch c m).

Definition call_base (m : string) (a : Arg) (b : AGameModeBase)
  : option (AGameModeBase * (Err + Ret)) :=
  option_map (fun g => g a b) (AGameModeBase_vtable m).

(** Default construction: the base subobject is constructed first, then the
    members take their defaults, then the constructor's body runs. *)
Definition construct (c : ClassDecl) (i : Init) : Object (class_fields c) :=
  let o := embed (class_fields c) (AGameModeBase_ctor i) in
  match default_constructor c with
  | Some body => body o
  | None => o
  end.

(** The classes a header declares. *)
Definition class_of (d : Declaration) : list ClassDecl :=
  match d with
  | ClassDeclaration c => [c]
  | _ => []
  end.

Definition classes (u : list Declaration) : list ClassDecl := flat_map class_of u.

(** The operations a header defines, by name: free functions, member
    functions, and constructors (named after their class). *)
Definition operations_of (d : Declaration) : list string :=
  match d with
  | FunctionDefinition name _ => [name]
  | ClassDeclaration c =>
      map fst (own_methods c) ++ map (fun _ => class_name c) (own_constructors c)
  | _ => []
  end.

Definition defined_operations (u : list Declaration) : list string :=
  flat_map operations_of u.

(** A state predicate is an invariant of a type when construction
    establishes it and every operation preserves it. *)
Definition Invariant {S : Type} (ctor : Init -> S)
  (ops : string -> option (Behaviour S)) (I : S -> Prop) : Prop :=
  (forall i, I (ctor i)) /\
  (forall m f a s, ops m = Some f -> I s -> I (fst (f a s))).

Definition BaseInvariant : (AGameModeBase -> Prop) -> Prop :=
  Invariant AGameModeBase_ctor AGameModeBase_vtable.

Definition ClassInvariant (c : ClassDecl)
  : (Object (class_fields c) -> Prop) -> Prop :=
  Invariant (construct c) (dispatch c).

(** A derived operation [f] and a base operation [g] behave alike: on every
    object, [f] returns what [g] returns on the base subobject and leaves the
    object with the base state [g] leaves, and nothing else changed. *)
Definition same_behaviour {fs : list DataMember}
  (f : Behaviour (Object fs)) (g : Behaviour AGameModeBase) : Prop :=
  forall a o,
    f a o = ({| base_part := fst (g a (upcast o)); own_part := own_part o |},
             snd (g a (upcast o))).

(** Two tables of operations hold the same entries. *)
Definition same_operation {fs : list DataMember}
  (f : option (Behaviour (Object fs))) (g : option (Behaviour AGameModeBase))
  : Prop :=
  match f, g with
  | Some f, Some g => same_behaviour f g
  | None, None => True
  | _, _ => False
  end.

(** A session: the calls made on an object, in order.  A call of a name the
    type does not have leaves the object as it is and has no outcome. *)
Fixpoint run {S : Type} (ops : string -> option (Behaviour S))
  (calls : list (string * Arg)) (s : S) : S * list (option (Err + Ret)) :=
  match calls with
  | [] => (s, [])
  | (m, a) :: rest =>
      match ops m with
      | Some f =>
          let r := f a s in
          let r' := run ops rest (fst r) in
          (fst r', Some (snd r) :: snd r')
      | None =>
          let r' := run ops rest s in
          (fst r', None :: snd r')
      end
  end.

(** The reflection markers of a class in a header: [UCLASS(...)] right before
    the class, [GENERATED_BODY()] in its body, and the generated header as
    the last include. *)
Fixpoint marked_UCLASS (u : list Declaration) (name : string) : bool :=
  match u with
  | Macro macro _ :: (ClassDeclaration c :: _) as rest =>
      (String.eqb macro "UCLASS" && String.eqb (class_name c) name)
      || marked_UCLASS rest name
  | _ :: rest => marked_UCLASS rest name
  | [] => false
  end.

Definition is_GENERATED_BODY {S : Type} (m : Member S) : bool :=
  match m with
  | MacroInvocation name _ => String.eqb name "GENERATED_BODY"
  | _ => false
  end.

Definition include_of (d : Declaration) : list string :=
  match d with
  | Include header => [header]
  | _ => []
  end.

Definition includes (u : list Declaration) : list string := flat_map include_of u.

(** What a concurrency design would have to say about an operation. *)
Inductive ConcurrencyAspect : Type :=
| SchedulingModel
| SuspensionPoint
| OrderingGuarantee
| SharedResourcePolicy.

(** ** Facts of the object model, for any class *)

Lemma lookup_nil (A : Type) (m : string) : @lookup A m [] = None.
Proof. reflexivity. Qed.

Lemma upcast_embed (fs : list DataMember) (b : AGameModeBase) :
  upcast (embed fs b) = b.
Proof. reflexivity. Qed.

(** A class with no data member of its own has one possible own storage. *)
Lemma FieldStore_nil_unique (fs : list DataMember) :
  fs = [] -> forall x y : FieldStore fs, x = y.
Proof.
  intros Hfs. subst fs. intros x y. destruct x, y. reflexivity.
Qed.

Lemma embed_upcast (fs : list DataMember) (o : Object fs) :
  fs = [] -> embed fs (upcast o) = o.
Proof.
  intros Hfs. destruct o as [b own]. unfold embed, upcast. cbn.
  f_equal. apply FieldStore_nil_unique. exact Hfs.
Qed.

Lemma upcast_injective (fs : list DataMember) (o1 o2 : Object fs) :
  fs = [] -> upcast o1 = upcast o2 -> o1 = o2.
Proof.
  intros Hfs Heq.
  rewrite <- (embed_upcast fs o1 Hfs), <- (embed_upcast fs o2 Hfs).
  now rewrite Heq.
Qed.

Lemma inherit_same_behaviour (fs : list DataMember) (g : Behaviour AGameModeBase) :
  same_behaviour (@inherit fs g) g.
Proof. intros a o. reflexivity. Qed.

(** A class that declares no member function resolves every name in the
    base. *)
Lemma dispatch_without_own_methods (c : ClassDecl) (m : string) :
  own_methods c = [] ->
  dispatch c m = option_map inherit (AGameModeBase_vtable m).
Proof.
  intros Hown. unfold dispatch. rewrite Hown. reflexivity.
Qed.

(** A class that declares no constructor is constructed as its base is. *)
Lemma construct_without_constructor (c : ClassDecl) (i : Init) :
  own_constructors c = [] ->
  construct c i = embed (class_fields c) (AGameModeBase_ctor i).
Proof.
  intros Hown. unfold construct, default_constructor. rewrite Hown. reflexivity.
Qed.

(** A session on an object of a class with no member function of its own is
    the same session on its base subobject. *)
Lemma run_without_own_methods (c : ClassDecl) :
  own_methods c = [] ->
  forall calls (o : Object (class_fields c)),
    run (dispatch c) calls o =
    ({| base_part := fst (run AGameModeBase_vtable calls (upcast o));
        own_part := own_part o |},
     snd (run AGameModeBase_vtable calls (upcast o))).
Proof.
  intros Hown calls.
  induction calls as [|[m a] rest IH]; intros o.
  - destruct o; reflexivity.
  - cbn [run]. rewrite (dispatch_without_own_methods c m Hown).
    destruct (AGameModeBase_vtable m) as [g|]; cbn [option_map].
    + rewrite IH. reflexivity.
    + rewrite IH. reflexivity.
Qed.

(** An invariant of the base holds along every session of the base. *)
Lemma BaseInvariant_run (I : AGameModeBase -> Prop) :
  BaseInvariant I ->
  forall calls b, I b -> I (fst (run AGameModeBase_vtable calls b)).
Proof.
  intros [_ Hstep] calls.
  induction calls as [|[m a] rest IH]; intros b Hb.
  - exact Hb.
  - cbn [run]. destruct (AGameModeBase_vtable m) as [g|] eqn:Hm; cbn [fst].
    + apply IH. apply (Hstep m g a b Hm Hb).
    + apply IH. exact Hb.
Qed.

(** ** Facts of [AdasTugGameModeBase] *)

Lemma AdasTugGameModeBase_fields : class_fields AdasTugGameModeBase = [].
Proof. reflexivity. Qed.

Lemma AdasTugGameModeBase_own_methods : own_methods AdasTugGameModeBase = [].
Proof. reflexivity. Qed.

Lemma AdasTugGameModeBase_own_constructors :
  own_constructors AdasTugGameModeBase = [].
Proof. reflexivity. Qed.

Lemma AdasTugGameModeBase_dispatch (m : string) :
  dispatch AdasTugGameModeBase m = option_map inherit (AGameModeBase_vtable m).
Proof.
  apply dispatch_without_own_methods, AdasTugGameModeBase_own_methods.
Qed.

Lemma AdasTugGameModeBase_construct (i : Init) :
  construct AdasTugGameModeBase i = embed [] (AGameModeBase_ctor i).
Proof.
  apply (construct_without_constructor AdasTugGameModeBase),
    AdasTugGameModeBase_own_constructors.
Qed.

Lemma AdasTugGameModeBase_object (o : Object (class_fields AdasTugGameModeBase)) :
  o = embed [] (upcast o).
Proof.
  symmetry. apply (embed_upcast (class_fields AdasTugGameModeBase)).
  apply AdasTugGameModeBase_fields.
Qed.

Lemma dasTugGameModeBase_h_reflection_markers :
  marked_UCLASS dasTugGameModeBase_h "AdasTugGameModeBase" = true /\
  existsb is_GENERATED_BODY (class_body AdasTugGameModeBase) = true /\
  last (includes dasTugGameModeBase_h) "" = "dasTugGameModeBase.generated.h".
Proof. repeat split. Qed.

(** ** The properties of the class *)

(** C1. [AdasTugGameModeBase] overrides nothing.  It declares no member
    function; every name resolves on it exactly when it resolves on
    [AGameModeBase], to an operation that behaves as the base's does on the
    base subobject; a call on an object is the base's call on its base
    subobject, and so is every sequence of calls. *)
Theorem AdasTugGameModeBase_overrides_nothing :
  own_methods AdasTugGameModeBase = [] /\
  (forall m,
     same_operation (dispatch AdasTugGameModeBase m) (AGameModeBase_vtable m)) /\
  (forall m a o,
     call AdasTugGameModeBase m a o =
     option_map (fun r => (embed [] (fst r), snd r))
       (call_base m a (upcast o))) /\
  (forall calls o,
     run (dispatch AdasTugGameModeBase) calls o =
     (embed [] (fst (run AGameModeBase_vtable calls (upcast o))),
      snd (run AGameModeBase_vtable calls (upcast o)))).
Proof.
  split; [reflexivity|]. split; [|split].
  - intros m. rewrite AdasTugGameModeBase_dispatch.
    destruct (AGameModeBase_vtable m) as [g|]; cbn.
    + apply inherit_same_behaviour.
    + exact I.
  - intros m a o. unfold call, call_base.
    rewrite AdasTugGameModeBase_dispatch.
    destruct (AGameModeBase_vtable m) as [g|]; cbn; [|reflexivity].
    destruct o as [b []]. reflexivity.
  - intros calls o.
    rewrite (run_without_own_methods AdasTugGameModeBase
               AdasTugGameModeBase_own_methods).
    destruct o as [b []]. reflexivity.
Qed.

(** C2. Every instantiation of [AdasTugGameModeBase] yields an object that
    meets the contract of [AGameModeBase] (each invariant [I] of the base
    holds of its base subobject, at construction and after any calls) and
    that does nothing the base does not do: whatever is called on it, the
    outcomes and the state are those of a default-constructed
    [AGameModeBase] under the same calls. *)
Theorem AdasTugGameModeBase_instance_meets_base_contract
  (I : AGameModeBase -> Prop) (i : Init) (calls : list (string * Arg)) :
  BaseInvariant I ->
  I (upcast (construct AdasTugGameModeBase i)) /\
  I (upcast (fst (run (dispatch AdasTugGameModeBase) calls
                    (construct AdasTugGameModeBase i)))) /\
  run (dispatch AdasTugGameModeBase) calls (construct AdasTugGameModeBase i) =
  (embed [] (fst (run AGameModeBase_vtable calls (AGameModeBase_ctor i))),
   snd (run AGameModeBase_vtable calls (AGameModeBase_ctor i))).
Proof.
  intros HI.
  rewrite AdasTugGameModeBase_construct.
  rewrite (run_without_own_methods AdasTugGameModeBase
             AdasTugGameModeBase_own_methods).
  cbn [fst snd upcast embed base_part own_part].
  split; [|split].
  - apply HI.
  - apply (BaseInvariant_run I HI). apply HI.
  - reflexivity.
Qed.

(** C3. The header declares exactly one class, [AdasTugGameModeBase], a
    subclass of [AGameModeBase] by public inheritance, and the class is
    empty: no data member, no member function, no constructor.  The header
    defines no function either, so it holds no logic at all. *)
Theorem dasTugGameModeBase_h_declares_one_empty_class :
  map class_name (classes dasTugGameModeBase_h) = ["AdasTugGameModeBase"] /\
  Forall (fun c =>
            class_base c = (Public, "AGameModeBase") /\
            class_fields c = [] /\
            members c = [] /\
            own_methods c = [] /\
            own_constructors c = [])
         (classes dasTugGameModeBase_h) /\
  defined_operations dasTugGameModeBase_h = [].
Proof.
  split; [reflexivity|]. split; [|reflexivity].
  cbn. constructor; [|constructor]. repeat split.
Qed.

(** C4. [AdasTugGameModeBase] has no field, and its invariants are the
    invariants of [AGameModeBase]: a predicate on its objects is an
    invariant of the class (established by construction, preserved by every
    operation) exactly when it is an invariant of the base read on the base
    subobject.  So each base invariant is inherited, and there is no
    invariant that is the class's own. *)
Theorem AdasTugGameModeBase_invariants_are_the_base_invariants :
  class_fields AdasTugGameModeBase = [] /\
  forall J : Object (class_fields AdasTugGameModeBase) -> Prop,
    ClassInvariant AdasTugGameModeBase J <->
    exists I : AGameModeBase -> Prop,
      BaseInvariant I /\ forall o, J o <-> I (upcast o).
Proof.
  split; [reflexivity|]. intros J. split.
  - intros [Hctor Hstep].
    exists (fun b => J (embed [] b)). split; [split|].
    + intros i. rewrite <- AdasTugGameModeBase_construct. apply Hctor.
    + intros m g a b Hm Hb.
      assert (Hd : dispatch AdasTugGameModeBase m = Some (inherit g)).
      { rewrite AdasTugGameModeBase_dispatch, Hm. reflexivity. }
      apply (Hstep m _ a (embed [] b) Hd Hb).
    + intros o. rewrite (AdasTugGameModeBase_object o) at 1. reflexivity.
  - intros [I [[Hctor Hstep] HJ]]. split.
    + intros i. apply HJ. rewrite AdasTugGameModeBase_construct. apply Hctor.
    + intros m f a o Hm Ho. apply HJ. apply HJ in Ho.
      rewrite AdasTugGameModeBase_dispatch in Hm.
      destruct (AGameModeBase_vtable m) as [g|] eqn:Hg; [|discriminate].
      injection Hm as <-. cbn. apply (Hstep m g a _ Hg Ho).
Qed.

(** C5. No failure originates in the header.  It defines no operation, and
    a call on an [AdasTugGameModeBase] object fails with [e] exactly when
    the inherited operation of [AGameModeBase] fails with [e] on the base
    subobject. *)
Theorem AdasTugGameModeBase_errors_are_the_base_errors :
  defined_operations dasTugGameModeBase_h = [] /\
  forall m a (o : Object (class_fields AdasTugGameModeBase)) (e : Err),
    option_map snd (call AdasTugGameModeBase m a o) = Some (inl e) <->
    option_map snd (call_base m a (upcast o)) = Some (inl e).
Proof.
  split; [reflexivity|]. intros m a o e.
  unfold call, call_base. rewrite AdasTugGameModeBase_dispatch.
  destruct (AGameModeBase_vtable m) as [g|]; cbn; reflexivity.
Qed.

(** C7. The header introduces no concurrency behaviour: it defines no
    operation, so whatever relation says which operation fixes which
    concurrency aspect (scheduling model, suspension point, ordering
    guarantee, shared-resource policy), no operation of the header does. *)
Theorem dasTugGameModeBase_h_has_no_concurrency
  (fixes : string -> ConcurrencyAspect -> Prop) :
  defined_operations dasTugGameModeBase_h = [] /\
  ~ exists op aspect,
      In op (defined_operations dasTugGameModeBase_h) /\ fixes op aspect.
Proof.
  split; [reflexivity|]. intros [op [aspect [Hin _]]]. exact Hin.
Qed.

(** C8. The state of an [AdasTugGameModeBase] is the state of an
    [AGameModeBase]: the class adds no data member, converting an object to
    its base and embedding that back gives the object, embedding a base
    state and converting gives the base state, and objects with equal base
    state are equal. *)
Theorem AdasTugGameModeBase_state_is_base_state :
  class_base AdasTugGameModeBase = (Public, "AGameModeBase") /\
  class_fields AdasTugGameModeBase = [] /\
  (forall o : Object (class_fields AdasTugGameModeBase),
     embed [] (upcast o) = o) /\
  (forall b : AGameModeBase,
     upcast (embed (class_fields AdasTugGameModeBase) b) = b) /\
  (forall o1 o2 : Object (class_fields AdasTugGameModeBase),
     upcast o1 = upcast o2 -> o1 = o2).
Proof.
  split; [reflexivity|]. split; [reflexivity|]. split; [|split].
  - intros o. symmetry. apply AdasTugGameModeBase_object.
  - intros b. apply upcast_embed.
  - intros o1 o2. apply upcast_injective. reflexivity.
Qed.

(** C9. Default construction of [AdasTugGameModeBase] is the default
    construction of [AGameModeBase] and nothing more: the class declares no
    constructor and no data member, the constructed object is the
    base-constructed state with nothing added, and every field read off its
    base subobject is the one the base constructor set. *)
Theorem AdasTugGameModeBase_construction_is_base_construction (i : Init) :
  default_constructor AdasTugGameModeBase = None /\
  class_fields AdasTugGameModeBase = [] /\
  construct AdasTugGameModeBase i = embed [] (AGameModeBase_ctor i) /\
  upcast (construct AdasTugGameModeBase i) = AGameModeBase_ctor i /\
  forall (A : Type) (field : AGameModeBase -> A),
    field (upcast (construct AdasTugGameModeBase i)) =
    field (AGameModeBase_ctor i).
Proof.
  split; [reflexivity|]. split; [reflexivity|].
  rewrite AdasTugGameModeBase_construct.
  split; [reflexivity|]. split; [reflexivity|]. intros A field. reflexivity.
Qed.

End Engine.

(** ** The class over the sample engine *)

Local Abbreviation game := (AdasTugGameModeBase Sample.State nat nat string nat).
Local Abbreviation game_dispatch :=
  (dispatch Sample.State nat nat string nat Sample.vtable game).
Local Abbreviation game_construct :=
  (construct Sample.State unit nat nat string nat Sample.ctor game).
Local Abbreviation game_call :=
  (call Sample.State nat nat string nat Sample.vtable game).
Local Abbreviation game_upcast := (upcast Sample.State nat).
Local Abbreviation sample_invariant :=
  (BaseInvariant Sample.State unit nat nat string Sample.ctor Sample.vtable).

Lemma Sample_started_with_players_invariant :
  sample_invariant Sample.started_with_players.
Proof.
  split.
  - intros i. unfold Sample.started_with_players. cbn. discriminate.
  - intros m f a s Hm Hs. unfold Sample.vtable in Hm.
    destruct (String.eqb m "StartPlay").
    + injection Hm as <-. unfold Sample.StartPlay, Sample.started_with_players.
      destruct (Sample.started s) eqn:Hstarted; cbn [fst].
      * intros _. apply Hs. exact Hstarted.
      * destruct (Nat.ltb 0 (Sample.players s)) eqn:Hlt; cbn [fst].
        -- intros _. apply PeanoNat.Nat.ltb_lt. exact Hlt.
        -- rewrite Hstarted. discriminate.
    + destruct (String.eqb m "Login"); [|discriminate].
      injection Hm as <-. unfold Sample.Login, Sample.started_with_players.
      destruct (Nat.ltb (Sample.players s) a); cbn [fst].
      * intros _. apply le_n_S, le_0_n.
      * exact Hs.
Qed.

(** A game-mode object takes a player in, starts play, and is asked for a
    member it does not have: the base invariant holds at the end, and state
    and outcomes are the base's. *)
Lemma AdasTugGameModeBase_instance_meets_base_contract_witness :
  sample_invariant Sample.started_with_players /\
  Sample.started_with_players
    (game_upcast
       (fst (run nat nat string game_dispatch
               [("Login", 4); ("StartPlay", 0); ("Jump", 0)]
               (game_construct tt)))) /\
  run nat nat string game_dispatch
    [("Login", 4); ("StartPlay", 0); ("Jump", 0)] (game_construct tt) =
  (embed Sample.State nat [] {| Sample.started := true; Sample.players := 1 |},
   [Some (inr 1); Some (inr 1); None]).
Proof.
  split; [exact Sample_started_with_players_invariant|].
  destruct (AdasTugGameModeBase_instance_meets_base_contract
              Sample.State unit nat nat string nat Sample.ctor Sample.vtable
              Sample.started_with_players tt
              [("Login", 4); ("StartPlay", 0); ("Jump", 0)]
              Sample_started_with_players_invariant) as [_ [Hinv Hrun]].
  split; [exact Hinv|]. rewrite Hrun. reflexivity.
Defined.

(** The base invariant of the sample engine, read on the base subobject, is
    an invariant of the class. *)
Lemma AdasTugGameModeBase_invariants_witness :
  sample_invariant Sample.started_with_players /\
  ClassInvariant Sample.State unit nat nat string nat Sample.ctor Sample.vtable
    game (fun o => Sample.started_with_players (game_upcast o)).
Proof.
  split; [exact Sample_started_with_players_invariant|].
  apply (proj2 (AdasTugGameModeBase_invariants_are_the_base_invariants
                  Sample.State unit nat nat string nat Sample.ctor Sample.vtable)).
  exists Sample.started_with_players.
  split; [exact Sample_started_with_players_invariant|].
  intros o. split; intros H; exact H.
Defined.

(** Starting play on a fresh object fails as the base does: nobody is in. *)
Lemma AdasTugGameModeBase_errors_witness :
  option_map snd
    (call_base Sample.State nat nat string Sample.vtable "StartPlay" 0
       (game_upcast (game_construct tt))) = Some (inl "no players") /\
  option_map snd (game_call "StartPlay" 0 (game_construct tt)) =
  Some (inl "no players").
Proof.
  split; [reflexivity|].
  apply (proj2 (AdasTugGameModeBase_errors_are_the_base_errors
                  Sample.State nat nat string nat Sample.vtable)).
  reflexivity.
Defined.

(** Two objects over the same base state are one object. *)
Lemma AdasTugGameModeBase_state_witness :
  game_upcast (game_construct tt) =
  game_upcast (embed Sample.State nat [] (Sample.ctor tt)) /\
  game_construct tt = embed Sample.State nat [] (Sample.ctor tt).
Proof.
  split; [reflexivity|].
  apply (proj2 (proj2 (proj2 (proj2
           (AdasTugGameModeBase_state_is_base_state
              Sample.State nat nat string nat))))).
  reflexivity.
Defined.

(** ** Contrast: classes that are not empty

    The same object model tells a class with a member of its own from its
    base, so the properties above are facts of the header and not of the
    model. *)
Module Contrast.

Arguments MemberFunction {Arg Ret Err S} name body.
Arguments Constructor {Arg Ret Err S} body.
Arguments MacroInvocation {Arg Ret Err S} name args.

(** A class that declares [StartPlay] itself. *)
Definition WithMemberFunction : ClassDecl Sample.State nat nat string nat := {|
  class_api := "DASTUG_API";
  class_name := "AWithMemberFunction";
  class_base := (Public, "AGameModeBase");
  class_fields := [];
  class_body := [MacroInvocation "GENERATED_BODY" [];
                 MemberFunction "StartPlay" (fun _ o => (o, inr 0))]
|}.

(** A class with a data member. *)
Definition WithDataMember : ClassDecl Sample.State nat nat string nat := {|
  class_api := "DASTUG_API";
  class_name := "AWithDataMember";
  class_base := (Public, "AGameModeBase");
  class_fields := [{| dm_type := "int32"; dm_name := "Score"; dm_default := 0 |}];
  class_body := [MacroInvocation "GENERATED_BODY" []]
|}.

(** A class whose constructor lets a player in. *)
Definition WithConstructor : ClassDecl Sample.State nat nat string nat := {|
  class_api := "DASTUG_API";
  class_name := "AWithConstructor";
  class_base := (Public, "AGameModeBase");
  class_fields := [];
  class_body := [MacroInvocation "GENERATED_BODY" [];
                 Constructor (fun o => fst (inherit Sample.State nat nat string nat
                                              Sample.Login 1 o))]
|}.

Lemma member_function_overrides :
  ~ same_operation Sample.State nat nat string nat
      (dispatch Sample.State nat nat string nat Sample.vtable
         WithMemberFunction "StartPlay")
      (Sample.vtable "StartPlay").
Proof.
  cbn. intros H.
  specialize (H 0 (embed Sample.State nat [] (Sample.ctor tt))).
  cbn in H. discriminate H.
Qed.

Lemma data_member_adds_state :
  exists o1 o2 : Object Sample.State nat (class_fields _ _ _ _ _ WithDataMember),
    upcast Sample.State nat o1 = upcast Sample.State nat o2 /\ o1 <> o2.
Proof.
  exists (Build_Object Sample.State nat
            (class_fields _ _ _ _ _ WithDataMember) (Sample.ctor tt) (0, tt)).
  exists (Build_Object Sample.State nat
            (class_fields _ _ _ _ _ WithDataMember) (Sample.ctor tt) (1, tt)).
  split; [reflexivity|]. intros H. discriminate H.
Qed.

Lemma constructor_changes_construction :
  upcast Sample.State nat
    (construct Sample.State unit nat nat string nat Sample.ctor
       WithConstructor tt) <> Sample.ctor tt.
Proof. cbn. intros H. discriminate H. Qed.

End Contrast.

(** ** The header under the preprocessor

    Lines 3 to 7 of the header are directives: [#pragma once] and three
    [#include]s.  This part gives them their meaning: a file is read item
    by item; [#pragma once] marks the file being read; [#include] reads the
    named file in place, unless it is marked already.  The engine's headers
    are a parameter. *)

From Stdlib Require Import Lia.

Arguments PragmaOnce {AGameModeBase Arg Ret Err Val}.
Arguments Include {AGameModeBase Arg Ret Err Val} header.
Arguments Macro {AGameModeBase Arg Ret Err Val} name args.
Arguments ClassDeclaration {AGameModeBase Arg Ret Err Val} c.
Arguments FunctionDefinition {AGameModeBase Arg Ret Err Val} name body.

(** Stand-ins for the three headers the class's header includes. *)
Module SampleHeaders.

Definition Decl : Type := Declaration Sample.State nat nat string nat.

Definition files (name : string) : option (list Decl) :=
  if String.eqb name "CoreMinimal.h" then Some [PragmaOnce]
  else if String.eqb name "GameFramework/GameModeBase.h"
  then Some [PragmaOnce; Include "CoreMinimal.h"; Macro "ENGINE_API" []]
  else if String.eqb name "dasTugGameModeBase.generated.h"
  then Some [Macro "PRAGMA_DISABLE_DEPRECATION_WARNINGS" []]
  else None.


End SampleHeaders.

Section Preprocessor.

Variable AGameModeBase : Type.
Variables Arg Ret Err Val : Type.

Local Abbreviation Decl := (Declaration AGameModeBase Arg Ret Err Val).

(** The engine's headers, by the name they are included under; [None] for a
    file that does not exist. *)
Variable engine_headers : string -> option (list Decl).

(** The name the header is included under. *)
Definition header_name : string := "dasTugGameModeBase.h".

(** The files an include can find: the header itself and the engine's. *)
Definition headers (name : string) : option (list Decl) :=
  if String.eqb name header_name
  then Some (dasTugGameModeBase_h AGameModeBase Arg Ret Err Val)
  else engine_headers name.

Inductive IncludeError : Type :=
| FileNotFound (name : string)
| IncludeNestingTooDeep (name : string).

(** The files marked [#pragma once] so far, and the declarations read. *)
Definition Preprocessed : Type := (list string * list Decl)%type.

Definition once_marked (name : string) (once : list string) : bool :=
  existsb (String.eqb name) once.

(** Reading the items of [file] in order; [inc] reads an included file. *)
Fixpoint scan (inc : string -> list string -> IncludeError + Preprocessed)
  (file : string) (u : list Decl) (once : list string)
  : IncludeError + Preprocessed :=
  match u with
  | [] => inr (once, [])
  | PragmaOnce :: rest => scan inc file rest (file :: once)
  | Include h :: rest =>
      match inc h once with
      | inl e => inl e
      | inr (once1, out1) =>
          match scan inc file rest once1 with
          | inl e => inl e
          | inr (once2, out2) => inr (once2, (out1 ++ out2)%list)
          end
      end
  | d :: rest =>
      match scan inc file rest once with
      | inl e => inl e
      | inr (once1, out) => inr (once1, d :: out)
      end
  end.

(** [#include "name"], with [depth] levels of nesting left: the file must
    exist; a file marked once is skipped; else it is read. *)
Fixpoint include_file (depth : nat) (name : string) (once : list string)
  : IncludeError + Preprocessed :=
  match headers name with
  | None => inl (FileNotFound name)
  | Some body =>
      if once_marked name once then inr (once, [])
      else match depth with
           | 0 => inl (IncludeNestingTooDeep name)
           | S depth' => scan (include_file depth') name body once
           end
  end.

(** The generated header that goes with a header [stem.h]. *)
Definition generated_header (file : string) : string :=
  String.substring 0 (String.length file - 2) file ++ ".generated.h".

(** Every [#include] comes before the first declaration. *)
Fixpoint includes_first (u : list Decl) (declared : bool) : bool :=
  match u with
  | [] => true
  | PragmaOnce :: rest => includes_first rest declared
  | Include _ :: rest => negb declared && includes_first rest declared
  | _ :: rest => includes_first rest true
  end.

(** The three headers the class's header includes. *)
Definition included_headers : list string :=
  includes AGameModeBase Arg Ret Err Val
    (dasTugGameModeBase_h AGameModeBase Arg Ret Err Val).

(** How many classes named [name] a list of declarations holds. *)
Definition declares (name : string) (u : list Decl) : nat :=
  length (filter (fun c => String.eqb (class_name AGameModeBase Arg Ret Err Val c) name)
            (classes AGameModeBase Arg Ret Err Val u)).

(** 1 when the header is marked, else 0. *)
Definition marked_count (once : list string) : nat :=
  if once_marked header_name once then 1 else 0.

(** Reading from [once] to [once'] gave [out]: the class is in [out] once
    when the header got marked on the way, and not at all otherwise. *)
Definition one_definition (once once' : list string) (out : list Decl) : Prop :=
  declares "AdasTugGameModeBase" out + marked_count once = marked_count once'.

(** *** Facts of the preprocessor *)

Lemma once_marked_In (name : string) (once : list string) :
  once_marked name once = true <-> In name once.
Proof.
  unfold once_marked. rewrite existsb_exists. split.
  - intros [x [Hin Heq]]. apply String.eqb_eq in Heq. now subst x.
  - intros Hin. exists name. split; [exact Hin | apply String.eqb_refl].
Qed.

(** Marks are never taken back while a file is read. *)
Lemma scan_monotone (inc : string -> list string -> IncludeError + Preprocessed)
  (file : string) (u : list Decl) :
  (forall h o o' out, inc h o = inr (o', out) -> incl o o') ->
  forall once once' out,
    scan inc file u once = inr (once', out) -> incl once once'.
Proof.
  intros Hinc. induction u as [|d rest IH]; intros once once' out H; cbn in H.
  - injection H as <- _. apply incl_refl.
  - destruct d as [|h|name args|c|name body].
    + apply IH in H. intros x Hx. apply H. now right.
    + destruct (inc h once) as [e|[once1 out1]] eqn:Hh; [discriminate|].
      destruct (scan inc file rest once1) as [e|[once2 out2]] eqn:Hrest;
        [discriminate|].
      injection H as <- _.
      apply (incl_tran (Hinc _ _ _ _ Hh) (IH _ _ _ Hrest)).
    + destruct (scan inc file rest once) as [e|[once1 out1]] eqn:Hrest;
        [discriminate|].
      injection H as <- _. apply (IH _ _ _ Hrest).
    + destruct (scan inc file rest once) as [e|[once1 out1]] eqn:Hrest;
        [discriminate|].
      injection H as <- _. apply (IH _ _ _ Hrest).
    + destruct (scan inc file rest once) as [e|[once1 out1]] eqn:Hrest;
        [discriminate|].
      injection H as <- _. apply (IH _ _ _ Hrest).
Qed.

(** A file that holds [#pragma once] is marked when it has been read. *)
Lemma scan_pragma_once_marks
  (inc : string -> list string -> IncludeError + Preprocessed)
  (file : string) (u : list Decl) :
  (forall h o o' out, inc h o = inr (o', out) -> incl o o') ->
  In PragmaOnce u ->
  forall once once' out,
    scan inc file u once = inr (once', out) -> In file once'.
Proof.
  intros Hinc. induction u as [|d rest IH]; intros Hin once once' out H.
  - destruct Hin.
  - destruct d as [|h|name args|c|name body]; cbn in H.
    + apply (scan_monotone inc file rest Hinc _ _ _ H). now left.
    + destruct Hin as [Hd|Hin]; [discriminate|].
      destruct (inc h once) as [e|[once1 out1]]; [discriminate|].
      destruct (scan inc file rest once1) as [e|[once2 out2]] eqn:Hrest;
        [discriminate|].
      injection H as <- _. apply (IH Hin _ _ _ Hrest).
    + destruct Hin as [Hd|Hin]; [discriminate|].
      destruct (scan inc file rest once) as [e|[once1 out1]] eqn:Hrest;
        [discriminate|].
      injection H as <- _. apply (IH Hin _ _ _ Hrest).
    + destruct Hin as [Hd|Hin]; [discriminate|].
      destruct (scan inc file rest once) as [e|[once1 out1]] eqn:Hrest;
        [discriminate|].
      injection H as <- _. apply (IH Hin _ _ _ Hrest).
    + destruct Hin as [Hd|Hin]; [discriminate|].
      destruct (scan inc file rest once) as [e|[once1 out1]] eqn:Hrest;
        [discriminate|].
      injection H as <- _. apply (IH Hin _ _ _ Hrest).
Qed.

Lemma include_file_monotone (depth : nat) :
  forall name once once' out,
    include_file depth name once = inr (once', out) -> incl once once'.
Proof.
  induction depth as [|depth IH]; intros name once once' out H; cbn in H;
    destruct (headers name) as [body|]; try discriminate;
    destruct (once_marked name once); try discriminate.
  - injection H as <- _. apply incl_refl.
  - injection H as <- _. apply incl_refl.
  - apply (scan_monotone (include_file depth) name body IH _ _ _ H).
Qed.

(** An include that went through named a file that exists. *)
Lemma include_file_found (depth : nat) (name : string) (once : list string)
  (r : Preprocessed) :
  include_file depth name once = inr r -> headers name <> None.
Proof.
  intros H Hnone. destruct depth; cbn in H; rewrite Hnone in H; discriminate.
Qed.

(** A file that was read through had all its includes found. *)
Lemma scan_includes_found (inc : string -> list string -> IncludeError + Preprocessed)
  (file : string) (u : list Decl) :
  (forall h o r, inc h o = inr r -> headers h <> None) ->
  forall once r,
    scan inc file u once = inr r ->
    forall h, In h (includes AGameModeBase Arg Ret Err Val u) -> headers h <> None.
Proof.
  intros Hinc. induction u as [|d rest IH]; intros once r H h Hin; cbn in H.
  - destruct Hin.
  - destruct d as [|h'|name args|c|name body]; cbn in Hin.
    + apply (IH _ _ H h Hin).
    + destruct (inc h' once) as [e|[once1 out1]] eqn:Hh; [discriminate|].
      destruct (scan inc file rest once1) as [e|[once2 out2]] eqn:Hrest;
        [discriminate|].
      destruct Hin as [<-|Hin].
      * apply (Hinc _ _ _ Hh).
      * apply (IH _ _ Hrest h Hin).
    + destruct (scan inc file rest once) as [e|r1] eqn:Hrest; [discriminate|].
      apply (IH _ _ Hrest h Hin).
    + destruct (scan inc file rest once) as [e|r1] eqn:Hrest; [discriminate|].
      apply (IH _ _ Hrest h Hin).
    + destruct (scan inc file rest once) as [e|r1] eqn:Hrest; [discriminate|].
      apply (IH _ _ Hrest h Hin).
Qed.

Lemma headers_header_name :
  headers header_name = Some (dasTugGameModeBase_h AGameModeBase Arg Ret Err Val).
Proof. reflexivity. Qed.

Lemma headers_included (h : string) :
  In h included_headers -> headers h = engine_headers h.
Proof.
  intros [<-|[<-|[<-|[]]]]; reflexivity.
Qed.

Lemma include_file_unfold (depth : nat) (name : string) (once : list string) :
  include_file depth name once =
  match headers name with
  | None => inl (FileNotFound name)
  | Some body =>
      if once_marked name once then inr (once, [])
      else match depth with
           | 0 => inl (IncludeNestingTooDeep name)
           | S depth' => scan (include_file depth') name body once
           end
  end.
Proof. destruct depth; reflexivity. Qed.

(** Reading with a reader that does at least as much does at least as much. *)
Lemma scan_extends (inc inc' : string -> list string -> IncludeError + Preprocessed)
  (file : string) (u : list Decl) :
  (forall h o r, inc h o = inr r -> inc' h o = inr r) ->
  forall once r, scan inc file u once = inr r -> scan inc' file u once = inr r.
Proof.
  intros Hext. induction u as [|d rest IH]; intros once r H; cbn in H |- *.
  - exact H.
  - destruct d as [|h|name args|c|name body].
    + apply IH. exact H.
    + destruct (inc h once) as [e|[once1 out1]] eqn:Hh; [discriminate|].
      rewrite (Hext _ _ _ Hh).
      destruct (scan inc file rest once1) as [e|[once2 out2]] eqn:Hrest;
        [discriminate|].
      rewrite (IH _ _ Hrest). exact H.
    + destruct (scan inc file rest once) as [e|r1] eqn:Hrest; [discriminate|].
      rewrite (IH _ _ Hrest). exact H.
    + destruct (scan inc file rest once) as [e|r1] eqn:Hrest; [discriminate|].
      rewrite (IH _ _ Hrest). exact H.
    + destruct (scan inc file rest once) as [e|r1] eqn:Hrest; [discriminate|].
      rewrite (IH _ _ Hrest). exact H.
Qed.

(** What an include gives does not depend on the nesting left, once there is
    enough of it. *)
Lemma include_file_deeper (depth : nat) :
  forall name once r,
    include_file depth name once = inr r ->
    include_file (S depth) name once = inr r.
Proof.
  induction depth as [|depth IH]; intros name once r H;
    rewrite include_file_unfold in H; rewrite include_file_unfold;
    destruct (headers name) as [body|]; try discriminate;
    destruct (once_marked name once); try exact H; try discriminate.
  apply (scan_extends (include_file depth) (include_file (S depth)) name body IH).
  exact H.
Qed.

(** The header is marked once an include of it went through. *)
Lemma header_marked_after_include (depth : nat) (once once' : list string)
  (out : list Decl) :
  include_file depth header_name once = inr (once', out) ->
  In header_name once'.
Proof.
  intros H. rewrite include_file_unfold, headers_header_name in H.
  destruct (once_marked header_name once) eqn:Hm.
  - injection H as <- _. apply once_marked_In. exact Hm.
  - destruct depth as [|depth]; [discriminate|].
    refine (scan_pragma_once_marks (include_file depth) header_name _
              (include_file_monotone depth) _ _ _ _ H).
    now left.
Qed.

(** *** The header's directives *)

(** X1. Layout of the header: it opens with [#pragma once]; its includes
    all come before its first declaration; the last include is the
    generated header named after the file; [UCLASS()] stands right before
    the class; and the class body opens with [GENERATED_BODY()]. *)
Theorem dasTugGameModeBase_h_reflection_layout :
  hd_error (dasTugGameModeBase_h AGameModeBase Arg Ret Err Val) = Some PragmaOnce /\
  includes_first (dasTugGameModeBase_h AGameModeBase Arg Ret Err Val) false = true /\
  last included_headers "" = generated_header header_name /\
  marked_UCLASS AGameModeBase Arg Ret Err Val
    (dasTugGameModeBase_h AGameModeBase Arg Ret Err Val)
    "AdasTugGameModeBase" = true /\
  option_map (is_GENERATED_BODY Arg Ret Err)
    (hd_error (class_body AGameModeBase Arg Ret Err Val
                 (AdasTugGameModeBase AGameModeBase Arg Ret Err Val))) = Some true.
Proof. repeat split. Qed.


(** X3. What the header adds is its class.  When it is read (it was not
    marked, and the include went through), the declarations are those of
    its three includes, read in order with the header marked, followed by
    [UCLASS()] and the class [AdasTugGameModeBase], and nothing else. *)
Theorem dasTugGameModeBase_h_adds_its_class
  (depth : nat) (once once' : list string) (out : list Decl) :
  once_marked header_name once = false ->
  include_file depth header_name once = inr (once', out) ->
  exists depth' pre,
    depth = S depth' /\
    scan (include_file depth') header_name (map Include included_headers)
      (header_name :: once) = inr (once', pre) /\
    out = (pre ++ [Macro "UCLASS" [];
                   ClassDeclaration
                     (AdasTugGameModeBase AGameModeBase Arg Ret Err Val)])%list.
Proof.
  intros Hfresh H.
  rewrite include_file_unfold, headers_header_name, Hfresh in H.
  destruct depth as [|depth']; [discriminate|].
  cbn [scan dasTugGameModeBase_h] in H.
  destruct (include_file depth' "CoreMinimal.h" (header_name :: once))
    as [e|[o1 out1]] eqn:H1; [discriminate|].
  destruct (include_file depth' "GameFramework/GameModeBase.h" o1)
    as [e|[o2 out2]] eqn:H2; [discriminate|].
  destruct (include_file depth' "dasTugGameModeBase.generated.h" o2)
    as [e|[o3 out3]] eqn:H3; [discriminate|].
  injection H as <- <-.
  exists depth', (out1 ++ out2 ++ out3)%list.
  split; [reflexivity|]. split.
  - cbn. rewrite H1, H2, H3. rewrite app_nil_r. reflexivity.
  - rewrite <- !app_assoc. reflexivity.
Qed.

(** X4. The header cannot be read without the engine's headers: when an
    include of it, not marked before, goes through, each of the three
    headers it includes exists. *)
Theorem dasTugGameModeBase_h_needs_its_includes
  (depth : nat) (once : list string) (r : Preprocessed) :
  once_marked header_name once = false ->
  include_file depth header_name once = inr r ->
  forall h, In h included_headers -> engine_headers h <> None.
Proof.
  intros Hfresh H h Hin.
  rewrite include_file_unfold, headers_header_name, Hfresh in H.
  destruct depth as [|depth']; [discriminate|].
  rewrite <- (headers_included h Hin).
  apply (scan_includes_found (include_file depth') header_name _
           (include_file_found depth') _ _ H h).
  exact Hin.
Qed.


(** *** One definition *)

Lemma declares_app (name : string) (u v : list Decl) :
  declares name (u ++ v) = declares name u + declares name v.
Proof.
  unfold declares, classes.
  now rewrite flat_map_app, filter_app, length_app.
Qed.

Lemma declares_cons (name : string) (d : Decl) (u : list Decl) :
  declares name (d :: u) = declares name [d] + declares name u.
Proof. apply (declares_app name [d] u). Qed.

Lemma marked_count_le (once : list string) : marked_count once <= 1.
Proof. unfold marked_count. destruct (once_marked header_name once); lia. Qed.

Lemma marked_count_other (file : string) (once : list string) :
  file <> header_name -> marked_count (file :: once) = marked_count once.
Proof.
  intros Hfile. unfold marked_count, once_marked. cbn [existsb].
  destruct (String.eqb header_name file) eqn:Heq; [|reflexivity].
  apply String.eqb_eq in Heq. congruence.
Qed.

Lemma marked_count_header (once : list string) :
  marked_count (header_name :: once) = 1.
Proof. reflexivity. Qed.

(** Reading a file that is not the header and declares no class of that
    name keeps [one_definition], when its includes do. *)
Lemma scan_one_definition
  (inc : string -> list string -> IncludeError + Preprocessed)
  (file : string) (u : list Decl) :
  file <> header_name ->
  (forall h o o' out, inc h o = inr (o', out) -> one_definition o o' out) ->
  declares "AdasTugGameModeBase" u = 0 ->
  forall once once' out,
    scan inc file u once = inr (once', out) -> one_definition once once' out.
Proof.
  intros Hfile Hinc. unfold one_definition in *.
  induction u as [|d rest IH]; intros Hclean once once' out H; cbn [scan] in H.
  - injection H as <- <-. reflexivity.
  - rewrite declares_cons in Hclean.
    assert (Hrest : declares "AdasTugGameModeBase" rest = 0) by lia.
    assert (Hd : declares "AdasTugGameModeBase" [d] = 0) by lia.
    specialize (IH Hrest).
    destruct d as [|h|name args|c|name body].
    + apply IH in H. rewrite marked_count_other in H by exact Hfile. exact H.
    + destruct (inc h once) as [e|[once1 out1]] eqn:Hh; [discriminate|].
      destruct (scan inc file rest once1) as [e|[once2 out2]] eqn:Hscan;
        [discriminate|].
      injection H as <- <-. rewrite declares_app.
      apply Hinc in Hh. apply IH in Hscan. lia.
    + destruct (scan inc file rest once) as [e|[once1 out1]] eqn:Hscan;
        [discriminate|].
      injection H as <- <-. rewrite declares_cons, Hd. apply IH in Hscan. lia.
    + destruct (scan inc file rest once) as [e|[once1 out1]] eqn:Hscan;
        [discriminate|].
      injection H as <- <-. rewrite declares_cons, Hd. apply IH in Hscan. lia.
    + destruct (scan inc file rest once) as [e|[once1 out1]] eqn:Hscan;
        [discriminate|].
      injection H as <- <-. rewrite declares_cons, Hd. apply IH in Hscan. lia.
Qed.

(** Every include keeps [one_definition], when no header of the engine
    declares a class named as the header's. *)
Lemma include_file_one_definition (depth : nat) :
  (forall h body, engine_headers h = Some body ->
                  declares "AdasTugGameModeBase" body = 0) ->
  forall name once once' out,
    include_file depth name once = inr (once', out) ->
    one_definition once once' out.
Proof.
  intros Hengine.
  induction depth as [|depth IH]; intros name once once' out H;
    rewrite include_file_unfold in H;
    destruct (headers name) as [body|] eqn:Hbody; try discriminate;
    destruct (once_marked name once) eqn:Hmarked; try discriminate;
    try (injection H as <- <-; reflexivity).
  destruct (String.eqb name header_name) eqn:Hname.
  - apply String.eqb_eq in Hname. subst name.
    rewrite headers_header_name in Hbody. injection Hbody as <-.
    cbn [scan dasTugGameModeBase_h] in H.
    destruct (include_file depth "CoreMinimal.h" (header_name :: once))
      as [e|[o1 out1]] eqn:H1; [discriminate|].
    destruct (include_file depth "GameFramework/GameModeBase.h" o1)
      as [e|[o2 out2]] eqn:H2; [discriminate|].
    destruct (include_file depth "dasTugGameModeBase.generated.h" o2)
      as [e|[o3 out3]] eqn:H3; [discriminate|].
    injection H as <- <-.
    apply IH in H1, H2, H3. unfold one_definition in *.
    rewrite marked_count_header in H1.
    pose proof (marked_count_le o1). pose proof (marked_count_le o2).
    pose proof (marked_count_le o3).
    rewrite !declares_app.
    assert (Hclass : declares "AdasTugGameModeBase"
                       [Macro "UCLASS" [];
                        ClassDeclaration
                          (AdasTugGameModeBase AGameModeBase Arg Ret Err Val)] = 1)
      by reflexivity.
    rewrite Hclass.
    unfold marked_count at 1. rewrite Hmarked. lia.
  - assert (Hfile : name <> header_name).
    { intros ->. rewrite String.eqb_refl in Hname. discriminate. }
    unfold headers in Hbody. rewrite Hname in Hbody.
    apply (scan_one_definition (include_file depth) name body Hfile IH
             (Hengine _ _ Hbody) _ _ _ H).
Qed.

(** A file that was read through had each of its includes go through, with
    marks that are still there at the end. *)
Lemma scan_include_went_through
  (inc : string -> list string -> IncludeError + Preprocessed)
  (file : string) (u : list Decl) :
  (forall h o o' out, inc h o = inr (o', out) -> incl o o') ->
  forall once once' out,
    scan inc file u once = inr (once', out) ->
    forall h, In h (includes AGameModeBase Arg Ret Err Val u) ->
    exists o o' out', inc h o = inr (o', out') /\ incl o' once'.
Proof.
  intros Hinc. induction u as [|d rest IH]; intros once once' out H h Hin;
    cbn [scan] in H.
  - destruct Hin.
  - destruct d as [|h'|name args|c|name body]; cbn in Hin.
    + apply (IH _ _ _ H h Hin).
    + destruct (inc h' once) as [e|[once1 out1]] eqn:Hh; [discriminate|].
      destruct (scan inc file rest once1) as [e|[once2 out2]] eqn:Hrest;
        [discriminate|].
      injection H as <- _. destruct Hin as [<-|Hin].
      * exists once, once1, out1. split; [exact Hh|].
        apply (scan_monotone inc file rest Hinc _ _ _ Hrest).
      * apply (IH _ _ _ Hrest h Hin).
    + destruct (scan inc file rest once) as [e|[once1 out1]] eqn:Hrest;
        [discriminate|].
      injection H as <- _. apply (IH _ _ _ Hrest h Hin).
    + destruct (scan inc file rest once) as [e|[once1 out1]] eqn:Hrest;
        [discriminate|].
      injection H as <- _. apply (IH _ _ _ Hrest h Hin).
    + destruct (scan inc file rest once) as [e|[once1 out1]] eqn:Hrest;
        [discriminate|].
      injection H as <- _. apply (IH _ _ _ Hrest h Hin).
Qed.

(** X6. One definition.  A source file that declares no class named
    [AdasTugGameModeBase] itself, read against engine headers that declare
    none either, ends up with at most one declaration of that class,
    however often and through whatever chain of includes the header is
    reached; and with exactly one when the file includes the header. *)
Theorem dasTugGameModeBase_h_one_definition
  (depth : nat) (file : string) (u : list Decl)
  (once' : list string) (out : list Decl) :
  file <> header_name ->
  declares "AdasTugGameModeBase" u = 0 ->
  (forall h body, engine_headers h = Some body ->
                  declares "AdasTugGameModeBase" body = 0) ->
  scan (include_file depth) file u [] = inr (once', out) ->
  declares "AdasTugGameModeBase" out <= 1 /\
  (In header_name (includes AGameModeBase Arg Ret Err Val u) ->
   declares "AdasTugGameModeBase" out = 1).
Proof.
  intros Hfile Hclean Hengine H.
  pose proof (scan_one_definition (include_file depth) file u Hfile
                (include_file_one_definition depth Hengine) Hclean _ _ _ H)
    as Hone.
  unfold one_definition in Hone.
  assert (Hstart : marked_count [] = 0) by reflexivity.
  pose proof (marked_count_le once') as Hle.
  split; [lia|]. intros Hin.
  destruct (scan_include_went_through (include_file depth) file u
              (include_file_monotone depth) _ _ _ H _ Hin)
    as [o [o' [out' [Hinc Hincl]]]].
  apply header_marked_after_include in Hinc. apply Hincl in Hinc.
  apply once_marked_In in Hinc.
  unfold marked_count in Hone at 2. rewrite Hinc in Hone. lia.
Qed.

End Preprocessor.

(** ** The header over the stand-in headers *)

Local Abbreviation sample_include :=
  (include_file Sample.State nat nat string nat SampleHeaders.files).
Local Abbreviation sample_scan :=
  (scan Sample.State nat nat string nat).
Local Abbreviation sample_declares :=
  (declares Sample.State nat nat string nat).
Local Abbreviation sample_class :=
  (AdasTugGameModeBase Sample.State nat nat string nat).

Lemma SampleHeaders_declare_no_game_mode (h : string) (body : list SampleHeaders.Decl) :
  SampleHeaders.files h = Some body ->
  sample_declares "AdasTugGameModeBase" body = 0.
Proof.
  unfold SampleHeaders.files. intros H.
  destruct (String.eqb h "CoreMinimal.h"); [injection H as <-; reflexivity|].
  destruct (String.eqb h "GameFramework/GameModeBase.h");
    [injection H as <-; reflexivity|].
  destruct (String.eqb h "dasTugGameModeBase.generated.h");
    [injection H as <-; reflexivity|discriminate].
Qed.


(** The first include of the header at nesting 3. *)
Lemma dasTugGameModeBase_h_adds_its_class_witness :
  once_marked header_name [] = false /\
  exists depth' pre,
    3 = S depth' /\
    sample_scan (sample_include depth') header_name
      (map Include (included_headers Sample.State nat nat string nat))
      [header_name] =
    inr (["GameFramework/GameModeBase.h"; "CoreMinimal.h"; header_name], pre) /\
    [Macro "ENGINE_API" []; Macro "PRAGMA_DISABLE_DEPRECATION_WARNINGS" [];
     Macro "UCLASS" []; ClassDeclaration sample_class] =
    (pre ++ [Macro "UCLASS" []; ClassDeclaration sample_class])%list.
Proof.
  split; [reflexivity|].
  exact (dasTugGameModeBase_h_adds_its_class
           Sample.State nat nat string nat SampleHeaders.files
           3 [] _ _ eq_refl eq_refl).
Defined.

(** The stand-in engine has the three headers. *)
Lemma dasTugGameModeBase_h_needs_its_includes_witness :
  once_marked header_name [] = false /\
  SampleHeaders.files "CoreMinimal.h" <> None /\
  SampleHeaders.files "GameFramework/GameModeBase.h" <> None /\
  SampleHeaders.files "dasTugGameModeBase.generated.h" <> None.
Proof.
  split; [reflexivity|].
  pose proof (dasTugGameModeBase_h_needs_its_includes
                Sample.State nat nat string nat SampleHeaders.files
                3 [] _ eq_refl eq_refl) as H.
  repeat split; apply H; cbn; tauto.
Defined.


(** A source file that includes the header, the engine's game-mode header,
    and the header again declares the class once. *)
Lemma dasTugGameModeBase_h_one_definition_witness :
  "dasTugGameModeBase.cpp" <> header_name /\
  sample_declares "AdasTugGameModeBase"
    [Include header_name; Include "GameFramework/GameModeBase.h";
     Include header_name] = 0 /\
  sample_declares "AdasTugGameModeBase"
    [Macro "ENGINE_API" []; Macro "PRAGMA_DISABLE_DEPRECATION_WARNINGS" [];
     Macro "UCLASS" []; ClassDeclaration sample_class] = 1.
Proof.
  split; [discriminate|]. split; [reflexivity|].
  refine (proj2 (dasTugGameModeBase_h_one_definition
                   Sample.State nat nat string nat SampleHeaders.files
                   3 "dasTugGameModeBase.cpp"
                   [Include header_name; Include "GameFramework/GameModeBase.h";
                    Include header_name]
                   _ _ _ eq_refl SampleHeaders_declare_no_game_mode eq_refl) _).
  - discriminate.
  - now left.
Defined.
